(** * Sprite-sheet icon addressing of [textures/icons.c]

    The example draws one icon out of a square texture holding
    [icon_id[1]] x [icon_id[1]] icons.  The vertex shader embedded in
    [init] turns the uniform [icon_id] (icon number, icons per side) into
    texture coordinates, and the key callback [key_cb] changes the icon
    number.  This file embeds both and relates them to the atlas
    addressing contract ([rectForIndex], [indexForPoint]).

    Number model.  [GLuint] and GLSL [uint] are integers in
    [0, 2^32) with wrap-around written out ([UInt]).  GLSL [float]
    values are modelled by exact rationals ([Q]): GLSL leaves the
    precision of float operations to the implementation, so rounding is
    not part of this model, and equalities between coordinates are
    equalities of rationals ([==]). *)

From Stdlib Require Import ZArith QArith Qround Lqa Lia Bool List Ascii.
Import ListNotations.

Local Open Scope Z_scope.

(** ** Unsigned 32-bit arithmetic *)

Module UInt.

Definition modulus : Z := 2 ^ 32.

Definition in_range (z : Z) : Prop := 0 <= z < modulus.

(** Conversion of an integer to [GLuint] / [uint]. *)
Definition wrap (z : Z) : Z := z mod modulus.

Definition add (a b : Z) : Z := wrap (a + b).
Definition sub (a b : Z) : Z := wrap (a - b).

(** Unsigned division; the divisor is non-zero wherever it is used. *)
Definition div (a b : Z) : Z := a / b.

End UInt.

(** ** GLSL values *)

Record uvec2 : Type := mk_uvec2 { uvec2_x : Z; uvec2_y : Z }.
Record vec2 : Type := mk_vec2 { vec2_x : Q; vec2_y : Q }.

(** [float(u)] for an unsigned integer [u]. *)
Definition float_of_uint (u : Z) : Q := inject_Z u.

(** GLSL [mod(x, y)] on floats: [x - y * floor(x / y)]. *)
Definition glsl_mod (x y : Q) : Q := (x - y * inject_Z (Qfloor (x / y)))%Q.

(** ** The vertex shader of [init]

    [vs_tex_coord icon_id v_tex] is the value the shader's [main] writes
    to [vs_tex_coord].  Both divisions by [icon_id.y] are undefined when
    it is zero; the embedding returns [None] there. *)
Definition vs_tex_coord (icon_id : uvec2) (v_tex : vec2) : option vec2 :=
  if uvec2_y icon_id =? 0 then None
  else
    let square_side := (float_of_uint 1 / float_of_uint (uvec2_y icon_id))%Q in
    Some {|
      vec2_x :=
        (glsl_mod (float_of_uint (uvec2_x icon_id))
                  (float_of_uint (uvec2_y icon_id)) * square_side
         + vec2_x v_tex * square_side)%Q;
      vec2_y :=
        (float_of_uint
           (UInt.sub (UInt.sub (uvec2_y icon_id) 1)
                     (UInt.div (uvec2_x icon_id) (uvec2_y icon_id)))
           * square_side
         + vec2_y v_tex * square_side)%Q
    |}.

(** The texture coordinates stored in [quad_data] (second half of the
    array), one per vertex of the quad. *)
Definition quad_tex_coords : list vec2 :=
  [ mk_vec2 0 1; mk_vec2 1 1; mk_vec2 1 0; mk_vec2 0 0 ].

(** ** Texture rectangles *)

Record UVRect : Type := mk_UVRect { uMin : Q; vMin : Q; uMax : Q; vMax : Q }.

Definition UVRect_eq (r1 r2 : UVRect) : Prop :=
  (uMin r1 == uMin r2 /\ vMin r1 == vMin r2 /\
   uMax r1 == uMax r2 /\ vMax r1 == vMax r2)%Q.

Definition in_unit_square (r : UVRect) : Prop :=
  (0 <= uMin r /\ uMin r < uMax r /\ uMax r <= 1 /\
   0 <= vMin r /\ vMin r < vMax r /\ vMax r <= 1)%Q.

(** [returns o r]: the computation [o] produced a rectangle, equal to [r]. *)
Definition returns (o : option UVRect) (r : UVRect) : Prop :=
  match o with
  | Some r' => UVRect_eq r' r
  | None => False
  end.

(** The rectangle the shader maps the quad to: its corner for
    [v_tex = (0, 0)] and its corner for [v_tex = (1, 1)], both of which
    are vertices of [quad_tex_coords]. *)
Definition rectForIndex (sideCount index : Z) : option UVRect :=
  let icon_id := mk_uvec2 index sideCount in
  match vs_tex_coord icon_id (mk_vec2 0 0), vs_tex_coord icon_id (mk_vec2 1 1) with
  | Some lo, Some hi =>
      Some {| uMin := vec2_x lo; vMin := vec2_y lo;
              uMax := vec2_x hi; vMax := vec2_y hi |}
  | _, _ => None
  end.




(** ** Program state and the key callback *)

(** The handles [init] obtains from OpenGL: [program], [attr_vpos],
    [attr_vtex], [attr_iconid], [tex]. *)
Record gl_handles : Type := mk_gl_handles {
  program : Z;
  attr_vpos : Z;
  attr_vtex : Z;
  attr_iconid : Z;
  tex : Z
}.

(** The process-wide state the callbacks and [display] work on.
    [icon_id] is the array [GLuint icon_id[2]]; [window_should_close] is
    the close flag GLFW keeps for [window]. *)
Record globals : Type := mk_globals {
  handles : gl_handles;
  icon_id : uvec2;
  window_should_close : bool
}.

(** A brace initialiser [GLuint icon_id[2] = {a, b}] converts both
    constants to [GLuint] and stores them; nothing else happens. *)
Definition icon_id_initializer (a b : Z) : uvec2 :=
  mk_uvec2 (UInt.wrap a) (UInt.wrap b).

(** [GLuint icon_id[2] = {0, 4};] *)
Definition icon_id_init : uvec2 := icon_id_initializer 0 4.

(** The state when the main loop starts: [init] has filled the handles,
    [icon_id] still has its initial value, the window is open. *)
Definition after_init (h : gl_handles) : globals :=
  {| handles := h; icon_id := icon_id_init; window_should_close := false |}.

Definition set_icon_index (g : globals) (i : Z) : globals :=
  {| handles := handles g;
     icon_id := mk_uvec2 i (uvec2_y (icon_id g));
     window_should_close := window_should_close g |}.

Definition set_should_close (g : globals) (b : bool) : globals :=
  {| handles := handles g; icon_id := icon_id g; window_should_close := b |}.

(** The value of a C character constant. *)
Definition char_code (c : ascii) : Z := Z.of_N (N_of_ascii c).

Record key_event : Type := mk_key_event {
  ev_key : Z;
  ev_scancode : Z;
  ev_action : Z;
  ev_mods : Z
}.

Section KeyCallback.

(** Constants of [GLFW/glfw3.h], which is not part of the repository. *)
Variables GLFW_KEY_ESCAPE GLFW_KEY_RIGHT GLFW_KEY_LEFT GLFW_PRESS : Z.

Definition key_cb (g : globals) (key scancode action mods : Z) : globals :=
  let g :=
    if (key =? GLFW_KEY_ESCAPE) && (action =? GLFW_PRESS)
    then set_should_close g true
    else g in
  if (char_code "0" <=? key) && (key <=? char_code "9") && (action =? GLFW_PRESS)
  then set_icon_index g (UInt.wrap (key - char_code "0"))
  else if (key =? GLFW_KEY_RIGHT) && (action =? GLFW_PRESS)
  then set_icon_index g (UInt.add (uvec2_x (icon_id g)) 1)
  else if (key =? GLFW_KEY_LEFT) && (action =? GLFW_PRESS)
  then set_icon_index g (UInt.sub (uvec2_x (icon_id g)) 1)
  else g.

(** [glfwPollEvents] delivers the pending key events to [key_cb] in order. *)
Fixpoint poll_events (evs : list key_event) (g : globals) : globals :=
  match evs with
  | [] => g
  | e :: evs' =>
      poll_events evs' (key_cb g (ev_key e) (ev_scancode e) (ev_action e) (ev_mods e))
  end.

End KeyCallback.

(** [display] sends [icon_id] to the shader as it is
    ([glUniform2uiv]) and draws the four vertices of the quad; the result
    kept here is the texture coordinate the shader gives each vertex. *)
Definition display (g : globals) : list (option vec2) :=
  map (vs_tex_coord (icon_id g)) quad_tex_coords.

(** The values [glfw3.h] gives the constants [key_cb] uses. *)
Module Glfw3.
Definition KEY_ESCAPE : Z := 256.
Definition KEY_RIGHT : Z := 262.
Definition KEY_LEFT : Z := 263.
Definition PRESS : Z := 1.
End Glfw3.

(** ** Vocabulary for statements about batches of key events *)

(** [e] reports the action [press] on [key]. *)
Definition is_press_of (press key : Z) (e : key_event) : bool :=
  (ev_key e =? key) && (ev_action e =? press).

(** [e] passes the digit test of [key_cb]. *)
Definition is_digit_press (press : Z) (e : key_event) : bool :=
  (char_code "0" <=? ev_key e) && (ev_key e <=? char_code "9")
  && (ev_action e =? press).

Definition count_presses (press key : Z) (evs : list key_event) : Z :=
  Z.of_nat (length (filter (is_press_of press key) evs)).

(** A texture coordinate that is defined and inside the texture. *)
Definition coord_in_unit (p : option vec2) : Prop :=
  match p with
  | Some q => (0 <= vec2_x q /\ vec2_x q <= 1 /\ 0 <= vec2_y q /\ vec2_y q <= 1)%Q
  | None => False
  end.

(** ** The calls the program makes

    The functions of [icons.c] other than the shader and [key_cb] are
    sequences of calls into OpenGL, GLFW, GLEW, LodePNG and the C library.
    They are embedded as functions that return the list of calls made, in
    order, with the object a call works on as its argument; arguments
    that are constants in the source are not recorded.  What the
    libraries answer is read from an environment [gl_env]. *)

Inductive shader_type : Type := GL_VERTEX_SHADER | GL_FRAGMENT_SHADER.

Inductive stream : Type := stdout | stderr.

Inductive attrib_name : Type := v_pos | v_tex.

(** The messages of the [printf] and [fprintf] calls, by format string. *)
Inductive message : Type :=
| msg_compiling (type : shader_type)   (* "Compiling %s Shader...  " *)
| msg_compiled (ok : bool)             (* "%s!\n", "OK" or "FAILED" *)
| msg_info_log                         (* "%s", the shader info log *)
| msg_missing (n : Z)                  (* "... missing %d characters!\n" *)
| msg_no_link                          (* "Program didn't link\n" *)
| msg_no_attribute (name : attrib_name)(* "Setting shader attribute '...' failed.\n" *)
| msg_image_error (error : Z)          (* "Error loading image file %u: %s\n" *)
| msg_glfw_failed                      (* "GLFW Error: Failed to initialize\nQuitting...\n" *)
| msg_glew_failed                      (* "GLEW Error: %s\nQuitting...\n" *)
| msg_using_glfw                       (* "Using GLFW %s\n" *)
| msg_using_opengl.                    (* "Using OpenGL %s\n" *)

Inductive call : Type :=
| glClearColor | glBlendFunc | glEnable
| glCreateShader (type : shader_type)
| glShaderSource (shader : Z)
| glCompileShader (shader : Z)
| glGetShaderiv (shader : Z)
| glGetShaderInfoLog (shader : Z)
| glDeleteShader (shader : Z)
| glCreateProgram
| glAttachShader (prog shader : Z)
| glLinkProgram (prog : Z)
| glGetProgramiv (prog : Z)
| glDetachShader (prog shader : Z)
| glGetAttribLocation (prog : Z) (name : attrib_name)
| glGetUniformLocation (prog : Z)
| glActiveTexture | glGenTextures
| glBindTexture (texture : Z)
| glTexParameteri
| lodepng_decode32_file
| glTexImage2D
| free
| glGenVertexArrays
| glBindVertexArray (vao : Z)
| glGenBuffers
| glBindBuffer (buffer : Z)
| glBufferData
| glClear
| glUseProgram (prog : Z)
| glEnableVertexAttribArray (index : Z)
| glVertexAttribPointer (index : Z)
| glUniform2uiv (location : Z) (value : uvec2)
| glDrawArrays
| glDisableVertexAttribArray (index : Z)
| glFlush
| glfwSetErrorCallback | glfwInit | glfwGetVersionString | glfwWindowHint
| glfwCreateWindow | glfwTerminate | glfwDestroyWindow
| glfwSetKeyCallback | glfwMakeContextCurrent
| glewInit | glewGetErrorString | glGetString | glfwSwapInterval
| glfwWindowShouldClose | glfwSwapBuffers | glfwPollEvents
| fprintf (s : stream) (m : message)
| printf (m : message)
| exit (status : Z).

(** What [glGetShaderiv] and [glGetShaderInfoLog] report for one shader. *)
Record compile_info : Type := mk_compile_info {
  is_compile_ok : bool;
  logSize : Z;
  written : Z
}.

(** The answers of the libraries during one run. *)
Record gl_env : Type := mk_gl_env {
  env_glfwInit : bool;           (* [glfwInit()] is non-zero *)
  env_window : bool;             (* [glfwCreateWindow] is not NULL *)
  env_glewInit : bool;           (* [glewInit()] is [GLEW_OK] *)
  env_vs : Z;                    (* [glCreateShader(GL_VERTEX_SHADER)] *)
  env_vs_info : compile_info;
  env_fs : Z;                    (* [glCreateShader(GL_FRAGMENT_SHADER)] *)
  env_fs_info : compile_info;
  env_program : Z;               (* [glCreateProgram()] *)
  env_is_link_ok : bool;
  env_v_pos : Z;                 (* [glGetAttribLocation(program, "v_pos")] *)
  env_v_tex : Z;
  env_icon_id : Z;               (* [glGetUniformLocation(program, "icon_id")] *)
  env_tex : Z;                   (* [glGenTextures] *)
  env_decode_error : Z;          (* [lodepng_decode32_file] *)
  env_vao : Z;
  env_buffer : Z
}.

(** The globals before [main] runs: static storage is zeroed. *)
Definition globals_at_start : globals :=
  {| handles := mk_gl_handles 0 0 0 0 0;
     icon_id := icon_id_init;
     window_should_close := false |}.

Definition set_handles (g : globals) (h : gl_handles) : globals :=
  {| handles := h; icon_id := icon_id g; window_should_close := window_should_close g |}.

Definition load_icons_texture (env : gl_env) (g : globals) : list call * globals :=
  ([ glActiveTexture; glGenTextures; glBindTexture (env_tex env);
     glTexParameteri; glTexParameteri; glTexParameteri; glTexParameteri;
     lodepng_decode32_file ]
   ++ (if env_decode_error env =? 0 then []
       else [ fprintf stderr (msg_image_error (env_decode_error env)) ])
   ++ [ glTexImage2D; glBindTexture 0; free ],
   set_handles g
     {| program := program (handles g); attr_vpos := attr_vpos (handles g);
        attr_vtex := attr_vtex (handles g); attr_iconid := attr_iconid (handles g);
        tex := env_tex env |}).

(** The calls of [display]; what the draw call samples is [display]. *)
Definition display_calls (g : globals) : list call :=
  let h := handles g in
  [ glClear; glUseProgram (program h);
    glEnableVertexAttribArray (attr_vpos h); glVertexAttribPointer (attr_vpos h);
    glEnableVertexAttribArray (attr_vtex h); glVertexAttribPointer (attr_vtex h);
    glUniform2uiv (attr_iconid h) (icon_id g);
    glBindTexture (tex h);
    glDrawArrays;
    glBindTexture 0;
    glDisableVertexAttribArray (attr_vpos h); glDisableVertexAttribArray (attr_vtex h);
    glUseProgram 0;
    glFlush ].

Definition compile_shader (info : compile_info) (shader : Z) (type : shader_type)
  : list call * bool :=
  ([ fprintf stdout (msg_compiling type);
     glShaderSource shader; glCompileShader shader; glGetShaderiv shader;
     fprintf stdout (msg_compiled (is_compile_ok info));
     glGetShaderiv shader; glGetShaderInfoLog shader ]
   ++ (if written info =? 0 then []
       else fprintf stderr msg_info_log
            :: (if logSize info =? written info + 1 then []
                else [ fprintf stderr (msg_missing (logSize info - written info + 1)) ]))
   ++ (if is_compile_ok info then [] else [ glDeleteShader shader ]),
   is_compile_ok info).

Definition init (env : gl_env) (g : globals) : list call * (bool * globals) :=
  let t0 := [ glClearColor; glBlendFunc; glEnable; glCreateShader GL_VERTEX_SHADER ] in
  let vs := env_vs env in
  let '(t1, vs_ok) := compile_shader (env_vs_info env) vs GL_VERTEX_SHADER in
  if negb vs_ok then (t0 ++ t1, (false, g))
  else
    let t2 := [ glCreateShader GL_FRAGMENT_SHADER ] in
    let fs := env_fs env in
    let '(t3, fs_ok) := compile_shader (env_fs_info env) fs GL_FRAGMENT_SHADER in
    if negb fs_ok then (t0 ++ t1 ++ t2 ++ t3, (false, g))
    else
      let p := env_program env in
      let g1 := set_handles g
        {| program := p; attr_vpos := attr_vpos (handles g);
           attr_vtex := attr_vtex (handles g); attr_iconid := attr_iconid (handles g);
           tex := tex (handles g) |} in
      let t4 := [ glCreateProgram; glAttachShader p vs; glAttachShader p fs;
                  glLinkProgram p; glGetProgramiv p;
                  glDetachShader p vs; glDetachShader p fs;
                  glDeleteShader vs; glDeleteShader fs ] in
      if negb (env_is_link_ok env)
      then (t0 ++ t1 ++ t2 ++ t3 ++ t4 ++ [ fprintf stderr msg_no_link ], (false, g1))
      else
        let t5 :=
          [ glGetAttribLocation p v_pos ]
          ++ (if env_v_pos env =? -1 then [ fprintf stderr (msg_no_attribute v_pos) ] else [])
          ++ [ glGetAttribLocation p v_tex ]
          ++ (if env_v_tex env =? -1 then [ fprintf stderr (msg_no_attribute v_tex) ] else [])
          ++ [ glGetUniformLocation p ] in
        let g2 := set_handles g1
          {| program := p; attr_vpos := env_v_pos env; attr_vtex := env_v_tex env;
             attr_iconid := env_icon_id env; tex := tex (handles g1) |} in
        let '(t6, g3) := load_icons_texture env g2 in
        let t7 := [ glGenVertexArrays; glBindVertexArray (env_vao env);
                    glGenBuffers; glBindBuffer (env_buffer env); glBufferData ] in
        (t0 ++ t1 ++ t2 ++ t3 ++ t4 ++ t5 ++ t6 ++ t7, (true, g3)).

Definition shutdown_glfw_and_exit (status_code : Z) : list call :=
  [ glfwDestroyWindow; glfwTerminate; exit status_code ].

(** What [glfwPollEvents] can deliver: a key event, passed to [key_cb],
    or a request to close the window, for which GLFW sets the close flag
    itself (no close callback is installed). *)
Inductive window_event : Type :=
| KeyEvent (e : key_event)
| CloseRequest.

(** How a run of [main] ends, as far as the events given reach:
    with a call of [exit], or still in the main loop. *)
Inductive outcome : Type :=
| Exited (status : Z)
| Running.

Section Program.

Variables GLFW_KEY_ESCAPE GLFW_KEY_RIGHT GLFW_KEY_LEFT GLFW_PRESS : Z.

Definition deliver (g : globals) (w : window_event) : globals :=
  match w with
  | KeyEvent e =>
      key_cb GLFW_KEY_ESCAPE GLFW_KEY_RIGHT GLFW_KEY_LEFT GLFW_PRESS g
        (ev_key e) (ev_scancode e) (ev_action e) (ev_mods e)
  | CloseRequest => set_should_close g true
  end.

(** One call of [glfwPollEvents] with the events [ws] pending. *)
Definition poll_window_events (ws : list window_event) (g : globals) : globals :=
  fold_left deliver ws g.

(** The main loop.  [batches] holds the events of each call of
    [glfwPollEvents]; when it runs out with the window still open, the
    program is still looping. *)
Fixpoint main_loop (batches : list (list window_event)) (g : globals)
  : list call * outcome :=
  if window_should_close g
  then (glfwWindowShouldClose :: shutdown_glfw_and_exit 0, Exited 0)
  else
    match batches with
    | [] => ([ glfwWindowShouldClose ], Running)
    | ws :: batches' =>
        let '(t, o) := main_loop batches' (poll_window_events ws g) in
        (glfwWindowShouldClose :: display_calls g
           ++ [ glfwSwapBuffers; glfwPollEvents ] ++ t, o)
    end.

Definition main (env : gl_env) (batches : list (list window_event))
  : list call * outcome :=
  let t0 := [ glfwSetErrorCallback; glfwInit ] in
  if negb (env_glfwInit env)
  then (t0 ++ [ fprintf stderr msg_glfw_failed; exit (-1) ], Exited (-1))
  else
    let t1 := [ glfwGetVersionString; printf msg_using_glfw;
                glfwWindowHint; glfwWindowHint; glfwWindowHint; glfwWindowHint;
                glfwCreateWindow ] in
    if negb (env_window env)
    then (t0 ++ t1 ++ [ glfwTerminate; exit (-1) ], Exited (-1))
    else
      let t2 := [ glfwSetKeyCallback; glfwMakeContextCurrent; glewInit ] in
      if negb (env_glewInit env)
      then (t0 ++ t1 ++ t2
              ++ [ glewGetErrorString; fprintf stderr msg_glew_failed ]
              ++ shutdown_glfw_and_exit (-1), Exited (-1))
      else
        let t3 := [ glGetString; printf msg_using_opengl; glfwSwapInterval ] in
        let '(t4, (ok, g)) := init env globals_at_start in
        if negb ok
        then (t0 ++ t1 ++ t2 ++ t3 ++ t4 ++ shutdown_glfw_and_exit (-1), Exited (-1))
        else
          let '(t5, o) := main_loop batches g in
          (t0 ++ t1 ++ t2 ++ t3 ++ t4 ++ t5, o).

End Program.

(** ** Vocabulary for statements about the calls *)

Definition count_calls (f : call -> bool) (t : list call) : Z :=
  Z.of_nat (length (filter f t)).

Definition is_delete_of (shader : Z) (c : call) : bool :=
  match c with glDeleteShader s => s =? shader | _ => false end.

Definition is_glTexImage2D (c : call) : bool :=
  match c with glTexImage2D => true | _ => false end.

Definition is_image_error_report (c : call) : bool :=
  match c with fprintf stderr (msg_image_error _) => true | _ => false end.

Definition is_glDrawArrays (c : call) : bool :=
  match c with glDrawArrays => true | _ => false end.

Definition is_glfwTerminate (c : call) : bool :=
  match c with glfwTerminate => true | _ => false end.

Definition is_glfwDestroyWindow (c : call) : bool :=
  match c with glfwDestroyWindow => true | _ => false end.

Definition is_exit (c : call) : bool :=
  match c with exit _ => true | _ => false end.

(** The calls that only [main], its loop and [display] make. *)
Definition made_by_main (c : call) : bool :=
  match c with
  | glDrawArrays | glUniform2uiv _ _ | glfwTerminate | glfwDestroyWindow | exit _ => true
  | _ => false
  end.

(** The event sets the close flag: a close request or a press of Escape. *)
Definition closes (esc press : Z) (w : window_event) : bool :=
  match w with
  | KeyEvent e => is_press_of press esc e
  | CloseRequest => true
  end.

(** The batches the main loop goes through: those up to and including the
    first one that holds a closing event. *)
Fixpoint batches_shown (esc press : Z) (batches : list (list window_event))
  : list (list window_event) :=
  match batches with
  | [] => []
  | ws :: batches' =>
      if existsb (closes esc press) ws then [ ws ]
      else ws :: batches_shown esc press batches'
  end.

(** Every step of start-up succeeds. *)
Definition startup_ok (env : gl_env) : bool :=
  env_glfwInit env && env_window env && env_glewInit env
  && is_compile_ok (env_vs_info env) && is_compile_ok (env_fs_info env)
  && env_is_link_ok env.

(** ** Arithmetic of the shader *)

Lemma glsl_mod_uint (x y : Z) :
  0 < y ->
  (glsl_mod (float_of_uint x) (float_of_uint y) == inject_Z (x mod y))%Q.
Proof.
  intros Hy. unfold glsl_mod, float_of_uint.
  rewrite <- Zdiv_Qdiv.
  rewrite (Z.mod_eq x y) by lia.
  unfold Z.sub. rewrite inject_Z_plus, inject_Z_opp, inject_Z_mult.
  ring.
Qed.

Lemma inv_row_no_wrap (sideCount index : Z) :
  1 <= sideCount < UInt.modulus ->
  0 <= index < sideCount * sideCount ->
  UInt.sub (UInt.sub sideCount 1) (UInt.div index sideCount)
  = sideCount - 1 - index / sideCount.
Proof.
  intros Hs Hi. unfold UInt.sub, UInt.div, UInt.wrap.
  assert (0 <= index / sideCount < sideCount).
  { split; [apply Z.div_pos; lia | apply Z.div_lt_upper_bound; lia]. }
  rewrite (Z.mod_small (sideCount - 1)) by lia.
  apply Z.mod_small. lia.
Qed.

Lemma inv_row_wrap (sideCount index : Z) :
  1 <= sideCount < UInt.modulus ->
  sideCount * sideCount <= index < UInt.modulus ->
  UInt.sub (UInt.sub sideCount 1) (UInt.div index sideCount)
  = UInt.modulus + sideCount - 1 - index / sideCount.
Proof.
  intros Hs Hi. unfold UInt.sub, UInt.div, UInt.wrap.
  assert (sideCount <= index / sideCount).
  { apply Z.div_le_lower_bound; lia. }
  assert (index / sideCount <= index).
  { apply Z.div_le_upper_bound; nia. }
  rewrite (Z.mod_small (sideCount - 1)) by lia.
  replace (sideCount - 1 - index / sideCount)
    with (UInt.modulus + sideCount - 1 - index / sideCount + (-1) * UInt.modulus)
    by ring.
  rewrite Z.mod_add by (unfold UInt.modulus; lia).
  apply Z.mod_small. lia.
Qed.


(** ** Rational helpers *)

Lemma inject_Z_nonneg (a : Z) : 0 <= a -> (0 <= inject_Z a)%Q.
Proof. intros H. change 0%Q with (inject_Z 0). rewrite <- Zle_Qle. exact H. Qed.

Lemma inject_Z_succ_le (a d : Z) : a < d -> (inject_Z a + 1 <= inject_Z d)%Q.
Proof.
  intros H. change 1%Q with (inject_Z 1).
  rewrite <- inject_Z_plus, <- Zle_Qle. lia.
Qed.

Lemma inject_Z_mono (a b : Z) : a <= b -> (inject_Z a <= inject_Z b)%Q.
Proof. intros H. rewrite <- Zle_Qle. exact H. Qed.

(** The side of one icon square: positive, and [sideCount] of them make 1. *)
Lemma square_side_facts (sideCount : Z) :
  1 <= sideCount ->
  (0 < 1 / inject_Z sideCount /\
   inject_Z sideCount * (1 / inject_Z sideCount) == 1)%Q.
Proof.
  intros Hs.
  assert (H0 : (0 < inject_Z sideCount)%Q).
  { change 0%Q with (inject_Z 0). rewrite <- Zlt_Qlt. lia. }
  split.
  - apply Qlt_shift_div_l; lra.
  - field. lra.
Qed.

(** A cell with number [a] below [d], in units of [t = 1/d], lies in [0, 1]. *)
Lemma cell_in_unit (a d : Z) (t : Q) :
  (0 < t)%Q -> (inject_Z d * t == 1)%Q -> 0 <= a < d ->
  (0 <= inject_Z a * t /\ inject_Z a * t + t <= 1)%Q.
Proof.
  intros Ht Hd [Ha0 Ha1].
  pose proof (inject_Z_nonneg a Ha0).
  pose proof (inject_Z_succ_le a d Ha1).
  split; nra.
Qed.

(** A cell with number [a] at or above [d] starts at or above 1. *)
Lemma cell_above_unit (a d : Z) (t : Q) :
  (0 < t)%Q -> (inject_Z d * t == 1)%Q -> d <= a ->
  (1 <= inject_Z a * t)%Q.
Proof.
  intros Ht Hd Ha.
  pose proof (inject_Z_mono d a Ha).
  nra.
Qed.



(** ** The rectangle computed by the shader *)

Lemma rectForIndex_defined (sideCount index : Z) :
  sideCount <> 0 ->
  exists r, rectForIndex sideCount index = Some r /\
    (uMin r == glsl_mod (inject_Z index) (inject_Z sideCount) * (1 / inject_Z sideCount) /\
     uMax r == uMin r + 1 / inject_Z sideCount /\
     vMin r == inject_Z (UInt.sub (UInt.sub sideCount 1) (UInt.div index sideCount))
               * (1 / inject_Z sideCount) /\
     vMax r == vMin r + 1 / inject_Z sideCount)%Q.
Proof.
  intros Hs. unfold rectForIndex, vs_tex_coord. cbn [uvec2_x uvec2_y].
  destruct (Z.eqb_spec sideCount 0) as [E | _]; [contradiction |].
  eexists. split; [reflexivity |].
  cbn [uMin uMax vMin vMax vec2_x vec2_y]. unfold float_of_uint.
  change (inject_Z 1) with 1%Q.
  repeat split; ring.
Qed.

(** For a positive [sideCount] the column term is [index mod sideCount]. *)
Lemma rectForIndex_columns (sideCount index : Z) :
  1 <= sideCount ->
  exists r, rectForIndex sideCount index = Some r /\
    (uMin r == inject_Z (index mod sideCount) * (1 / inject_Z sideCount) /\
     uMax r == uMin r + 1 / inject_Z sideCount /\
     vMin r == inject_Z (UInt.sub (UInt.sub sideCount 1) (UInt.div index sideCount))
               * (1 / inject_Z sideCount) /\
     vMax r == vMin r + 1 / inject_Z sideCount)%Q.
Proof.
  intros Hs.
  destruct (rectForIndex_defined sideCount index ltac:(lia)) as (r & Hr & Hu & Hu' & Hv & Hv').
  exists r. split; [exact Hr |].
  pose proof (glsl_mod_uint index sideCount ltac:(lia)) as Hm.
  unfold float_of_uint in Hm. rewrite Hm in Hu.
  repeat split; assumption.
Qed.

(** On valid indices the row term does not wrap. *)
Lemma rectForIndex_valid (sideCount index : Z) :
  1 <= sideCount < UInt.modulus ->
  0 <= index < sideCount * sideCount ->
  exists r, rectForIndex sideCount index = Some r /\
    (uMin r == inject_Z (index mod sideCount) * (1 / inject_Z sideCount) /\
     uMax r == uMin r + 1 / inject_Z sideCount /\
     vMin r == inject_Z (sideCount - 1 - index / sideCount) * (1 / inject_Z sideCount) /\
     vMax r == vMin r + 1 / inject_Z sideCount)%Q.
Proof.
  intros Hs Hi.
  destruct (rectForIndex_columns sideCount index ltac:(lia)) as (r & Hr & Hu & Hu' & Hv & Hv').
  exists r. split; [exact Hr |].
  rewrite (inv_row_no_wrap sideCount index Hs Hi) in Hv.
  repeat split; assumption.
Qed.

(** The four texture coordinates [display] draws with are the corners of
    [rectForIndex]: the quad's lower vertices get [vMax], its upper ones
    [vMin]. *)
Lemma display_corners (g : globals) (r : UVRect) :
  rectForIndex (uvec2_y (icon_id g)) (uvec2_x (icon_id g)) = Some r ->
  display g =
    [ Some (mk_vec2 (uMin r) (vMax r)); Some (mk_vec2 (uMax r) (vMax r));
      Some (mk_vec2 (uMax r) (vMin r)); Some (mk_vec2 (uMin r) (vMin r)) ].
Proof.
  unfold display, rectForIndex, quad_tex_coords, vs_tex_coord.
  destruct (icon_id g) as [x y]. cbn [uvec2_x uvec2_y map].
  destruct (y =? 0); [discriminate |].
  intros H. injection H as <-. reflexivity.
Qed.

(** The shader's own example: icon 6 of a 4 x 4 texture is at row 1,
    column 2, and the row is inverted. *)
Example rectForIndex_4_6 :
  returns (rectForIndex 4 6)
    {| uMin := 1 # 2; vMin := 1 # 2; uMax := 3 # 4; vMax := 3 # 4 |}.
Proof. vm_compute. repeat split. Qed.

(** ** Claims about the rectangle *)










(** C5, as stated, fails: with [sideCount = 4] the rectangle of index 0 is
    not [{uMin: 0, vMin: 0, uMax: 0.25, vMax: 0.25}]. *)
Lemma rectForIndex_4_0_not_origin :
  ~ returns (rectForIndex 4 0)
      {| uMin := 0; vMin := 0; uMax := 1 # 4; vMax := 1 # 4 |}.
Proof.
  intros H. vm_compute in H. destruct H as (_ & H & _). discriminate H.
Qed.

(** C5, amended: with [sideCount = 4] the rectangle of index 0 is
    [{uMin: 0, vMin: 0.75, uMax: 0.25, vMax: 1}]: the row is inverted, so
    index 0 is the leftmost square of the rows [v] in [[0.75, 1]]. *)
Theorem rectForIndex_4_0 :
  returns (rectForIndex 4 0)
    {| uMin := 0; vMin := 3 # 4; uMax := 1 # 4; vMax := 1 |}.
Proof. vm_compute. repeat split. Qed.





(** ** Claims about the key callback *)

Section KeyCallbackFacts.

Variables GLFW_KEY_ESCAPE GLFW_KEY_RIGHT GLFW_KEY_LEFT GLFW_PRESS : Z.

Local Abbreviation cb := (key_cb GLFW_KEY_ESCAPE GLFW_KEY_RIGHT GLFW_KEY_LEFT GLFW_PRESS).
Local Abbreviation poll := (poll_events GLFW_KEY_ESCAPE GLFW_KEY_RIGHT GLFW_KEY_LEFT GLFW_PRESS).

(** What [key_cb] never touches: the icons per side and the handles. *)
Lemma key_cb_frame (g : globals) (key scancode action mods : Z) :
  uvec2_y (icon_id (cb g key scancode action mods)) = uvec2_y (icon_id g) /\
  handles (cb g key scancode action mods) = handles g.
Proof.
  unfold key_cb.
  destruct ((key =? GLFW_KEY_ESCAPE) && (action =? GLFW_PRESS));
    destruct ((char_code "0" <=? key) && (key <=? char_code "9") && (action =? GLFW_PRESS));
    destruct ((key =? GLFW_KEY_RIGHT) && (action =? GLFW_PRESS));
    destruct ((key =? GLFW_KEY_LEFT) && (action =? GLFW_PRESS));
    split; reflexivity.
Qed.

Lemma poll_events_frame (evs : list key_event) (g : globals) :
  uvec2_y (icon_id (poll evs g)) = uvec2_y (icon_id g) /\
  handles (poll evs g) = handles g.
Proof.
  revert g. induction evs as [| e evs IH]; intros g.
  - split; reflexivity.
  - cbn [poll_events].
    destruct (IH (cb g (ev_key e) (ev_scancode e) (ev_action e) (ev_mods e))) as [IHy IHh].
    destruct (key_cb_frame g (ev_key e) (ev_scancode e) (ev_action e) (ev_mods e))
      as [Hy Hh].
    split; congruence.
Qed.

(** The icon number after a press of a key that is not a digit. *)
Lemma key_cb_press_not_digit (g : globals) (key scancode mods : Z) :
  ~ (char_code "0" <= key <= char_code "9") ->
  uvec2_x (icon_id (cb g key scancode GLFW_PRESS mods)) =
    if key =? GLFW_KEY_RIGHT then UInt.add (uvec2_x (icon_id g)) 1
    else if key =? GLFW_KEY_LEFT then UInt.sub (uvec2_x (icon_id g)) 1
    else uvec2_x (icon_id g).
Proof.
  intros Hnd. unfold key_cb.
  rewrite Z.eqb_refl, !andb_true_r.
  assert (Hd : (char_code "0" <=? key) && (key <=? char_code "9") = false).
  { apply andb_false_iff.
    destruct (Z.leb_spec (char_code "0") key); [| now left].
    destruct (Z.leb_spec key (char_code "9")); [| now right].
    exfalso. apply Hnd. split; assumption. }
  rewrite Hd.
  destruct (key =? GLFW_KEY_ESCAPE), (key =? GLFW_KEY_RIGHT), (key =? GLFW_KEY_LEFT);
    reflexivity.
Qed.


(** C8: a RIGHT-arrow press adds one to the stored icon number and a
    LEFT-arrow press subtracts one, with no bound check, in arithmetic
    modulo 2^32; a LEFT-arrow press at icon number 0 gives [2^32 - 1]. *)
Theorem key_cb_arrows (g : globals) (scancode mods : Z) :
  ~ (char_code "0" <= GLFW_KEY_RIGHT <= char_code "9") ->
  ~ (char_code "0" <= GLFW_KEY_LEFT <= char_code "9") ->
  GLFW_KEY_LEFT <> GLFW_KEY_RIGHT ->
  uvec2_x (icon_id (cb g GLFW_KEY_RIGHT scancode GLFW_PRESS mods))
    = (uvec2_x (icon_id g) + 1) mod 2 ^ 32 /\
  uvec2_x (icon_id (cb g GLFW_KEY_LEFT scancode GLFW_PRESS mods))
    = (uvec2_x (icon_id g) - 1) mod 2 ^ 32 /\
  (uvec2_x (icon_id g) = 0 ->
   uvec2_x (icon_id (cb g GLFW_KEY_LEFT scancode GLFW_PRESS mods)) = 2 ^ 32 - 1).
Proof.
  intros HR HL Hne.
  assert (EL : uvec2_x (icon_id (cb g GLFW_KEY_LEFT scancode GLFW_PRESS mods))
               = (uvec2_x (icon_id g) - 1) mod 2 ^ 32).
  { rewrite (key_cb_press_not_digit g GLFW_KEY_LEFT scancode mods HL).
    destruct (Z.eqb_spec GLFW_KEY_LEFT GLFW_KEY_RIGHT) as [E | _]; [contradiction |].
    rewrite Z.eqb_refl. reflexivity. }
  split; [| split].
  - rewrite (key_cb_press_not_digit g GLFW_KEY_RIGHT scancode mods HR).
    rewrite Z.eqb_refl. reflexivity.
  - exact EL.
  - intros H0. rewrite EL, H0. reflexivity.
Qed.

(** C9: whatever the key, scancode, action and modifiers, [key_cb] leaves
    the icons per side [icon_id[1]] unchanged, and the OpenGL handles
    too; it can only change [icon_id[0]] and the close flag. *)
Theorem key_cb_keeps_icons_per_side (g : globals) (key scancode action mods : Z) :
  uvec2_y (icon_id (cb g key scancode action mods)) = uvec2_y (icon_id g) /\
  handles (cb g key scancode action mods) = handles g.
Proof. exact (key_cb_frame g key scancode action mods). Qed.

End KeyCallbackFacts.

Lemma key_cb_arrows_witness :
  let g := after_init (mk_gl_handles 1 0 1 0 1) in
  ~ (char_code "0" <= Glfw3.KEY_RIGHT <= char_code "9") /\
  ~ (char_code "0" <= Glfw3.KEY_LEFT <= char_code "9") /\
  Glfw3.KEY_LEFT <> Glfw3.KEY_RIGHT /\
  uvec2_x (icon_id (key_cb Glfw3.KEY_ESCAPE Glfw3.KEY_RIGHT Glfw3.KEY_LEFT Glfw3.PRESS
                      g Glfw3.KEY_RIGHT 113 Glfw3.PRESS 0))
    = (uvec2_x (icon_id g) + 1) mod 2 ^ 32 /\
  uvec2_x (icon_id (key_cb Glfw3.KEY_ESCAPE Glfw3.KEY_RIGHT Glfw3.KEY_LEFT Glfw3.PRESS
                      g Glfw3.KEY_LEFT 113 Glfw3.PRESS 0))
    = (uvec2_x (icon_id g) - 1) mod 2 ^ 32 /\
  (uvec2_x (icon_id g) = 0 ->
   uvec2_x (icon_id (key_cb Glfw3.KEY_ESCAPE Glfw3.KEY_RIGHT Glfw3.KEY_LEFT Glfw3.PRESS
                       g Glfw3.KEY_LEFT 113 Glfw3.PRESS 0)) = 2 ^ 32 - 1).
Proof.
  intros g.
  assert (HR : ~ (char_code "0" <= Glfw3.KEY_RIGHT <= char_code "9"))
    by (vm_compute; intros [_ H]; apply H; reflexivity).
  assert (HL : ~ (char_code "0" <= Glfw3.KEY_LEFT <= char_code "9"))
    by (vm_compute; intros [_ H]; apply H; reflexivity).
  assert (Hne : Glfw3.KEY_LEFT <> Glfw3.KEY_RIGHT) by (vm_compute; discriminate).
  exact (conj HR (conj HL (conj Hne
    (key_cb_arrows Glfw3.KEY_ESCAPE Glfw3.KEY_RIGHT Glfw3.KEY_LEFT Glfw3.PRESS
       g 113 0 HR HL Hne)))).
Defined.


(** ** Further properties of the key callback *)

Section KeyCallbackMore.

Variables GLFW_KEY_ESCAPE GLFW_KEY_RIGHT GLFW_KEY_LEFT GLFW_PRESS : Z.

Local Abbreviation cb := (key_cb GLFW_KEY_ESCAPE GLFW_KEY_RIGHT GLFW_KEY_LEFT GLFW_PRESS).
Local Abbreviation poll := (poll_events GLFW_KEY_ESCAPE GLFW_KEY_RIGHT GLFW_KEY_LEFT GLFW_PRESS).
Local Abbreviation cb_ev :=
  (fun g e => cb g (ev_key e) (ev_scancode e) (ev_action e) (ev_mods e)).

Lemma digit_test_true (key : Z) :
  char_code "0" <= key <= char_code "9" ->
  (char_code "0" <=? key) && (key <=? char_code "9") = true.
Proof.
  intros [H0 H9]. apply andb_true_iff. split; apply Z.leb_le; assumption.
Qed.

Lemma digit_test_false (key : Z) :
  ~ (char_code "0" <= key <= char_code "9") ->
  (char_code "0" <=? key) && (key <=? char_code "9") = false.
Proof.
  intros Hnd. apply andb_false_iff.
  destruct (Z.leb_spec (char_code "0") key); [| now left].
  destruct (Z.leb_spec key (char_code "9")); [| now right].
  exfalso. apply Hnd. split; assumption.
Qed.

Lemma key_cb_digit_index (g : globals) (key scancode mods : Z) :
  char_code "0" <= key <= char_code "9" ->
  uvec2_x (icon_id (cb g key scancode GLFW_PRESS mods)) = key - char_code "0" /\
  0 <= uvec2_x (icon_id (cb g key scancode GLFW_PRESS mods)) <= 9.
Proof.
  intros Hd. unfold key_cb.
  rewrite (digit_test_true key Hd), Z.eqb_refl. cbn [andb].
  assert (E : UInt.wrap (key - char_code "0") = key - char_code "0").
  { apply Z.mod_small. change (char_code "0") with 48 in *.
    change (char_code "9") with 57 in *. unfold UInt.modulus. lia. }
  destruct ((key =? GLFW_KEY_ESCAPE) && true);
    cbn [set_icon_index icon_id uvec2_x]; rewrite E;
    change (char_code "0") with 48 in *; change (char_code "9") with 57 in *; lia.
Qed.

(** X1: a press of a digit key stores that digit, a value from 0 to 9, as
    the icon number, whatever the number was before; the digit test comes
    first, so this holds whatever the codes of the other keys are. *)
Theorem key_cb_digit (g : globals) (key scancode mods : Z) :
  char_code "0" <= key <= char_code "9" ->
  uvec2_x (icon_id (cb g key scancode GLFW_PRESS mods)) = key - char_code "0" /\
  0 <= uvec2_x (icon_id (cb g key scancode GLFW_PRESS mods)) <= 9.
Proof. exact (key_cb_digit_index g key scancode mods). Qed.

(** X2: [key_cb] leaves the whole state as it is unless the action is a
    press and the key is Escape, a digit or one of the two arrows: key
    releases and key repeats do nothing, and neither do other keys. *)
Theorem key_cb_ignores (g : globals) (key scancode action mods : Z) :
  action <> GLFW_PRESS \/
  (key <> GLFW_KEY_ESCAPE /\ ~ (char_code "0" <= key <= char_code "9") /\
   key <> GLFW_KEY_RIGHT /\ key <> GLFW_KEY_LEFT) ->
  cb g key scancode action mods = g.
Proof.
  intros [Ha | (He & Hd & Hr & Hl)]; unfold key_cb.
  - apply Z.eqb_neq in Ha. rewrite Ha, !andb_false_r. reflexivity.
  - apply Z.eqb_neq in He, Hr, Hl.
    rewrite He, Hr, Hl, (digit_test_false key Hd). reflexivity.
Qed.

(** X3: a press of Escape, when its code is neither a digit nor an arrow,
    sets the close flag and changes nothing else. *)
Theorem key_cb_escape (g : globals) (scancode mods : Z) :
  ~ (char_code "0" <= GLFW_KEY_ESCAPE <= char_code "9") ->
  GLFW_KEY_ESCAPE <> GLFW_KEY_RIGHT ->
  GLFW_KEY_ESCAPE <> GLFW_KEY_LEFT ->
  cb g GLFW_KEY_ESCAPE scancode GLFW_PRESS mods = set_should_close g true.
Proof.
  intros Hd Hr Hl. unfold key_cb.
  apply Z.eqb_neq in Hr, Hl.
  rewrite (digit_test_false _ Hd), Hr, Hl, !Z.eqb_refl. reflexivity.
Qed.

Lemma key_cb_close_flag (g : globals) (key scancode action mods : Z) :
  window_should_close (cb g key scancode action mods) =
    window_should_close g || ((key =? GLFW_KEY_ESCAPE) && (action =? GLFW_PRESS)).
Proof.
  unfold key_cb.
  destruct ((key =? GLFW_KEY_ESCAPE) && (action =? GLFW_PRESS));
    destruct ((char_code "0" <=? key) && (key <=? char_code "9") && (action =? GLFW_PRESS));
    destruct ((key =? GLFW_KEY_RIGHT) && (action =? GLFW_PRESS));
    destruct ((key =? GLFW_KEY_LEFT) && (action =? GLFW_PRESS));
    cbn [set_icon_index set_should_close window_should_close];
    rewrite ?orb_true_r, ?orb_false_r; reflexivity.
Qed.

Lemma poll_events_close_flag (evs : list key_event) (g : globals) :
  window_should_close (poll evs g) =
    window_should_close g || existsb (is_press_of GLFW_PRESS GLFW_KEY_ESCAPE) evs.
Proof.
  revert g. induction evs as [| e evs IH]; intros g; cbn [poll_events existsb].
  - rewrite orb_false_r. reflexivity.
  - rewrite IH, key_cb_close_flag. unfold is_press_of. rewrite orb_assoc. reflexivity.
Qed.

(** X4: after a batch of key events the close flag is set exactly when it
    was set before or the batch holds a press of Escape: no key clears
    the flag, and an Escape press is never lost to a later event. *)
Theorem poll_events_should_close (evs : list key_event) (g : globals) :
  window_should_close (poll evs g) = true <->
  window_should_close g = true \/
  exists e, In e evs /\ ev_key e = GLFW_KEY_ESCAPE /\ ev_action e = GLFW_PRESS.
Proof.
  rewrite poll_events_close_flag, orb_true_iff, existsb_exists.
  split; (intros [H | (e & Hin & He)]; [left; exact H | right; exists e]).
  - unfold is_press_of in He. apply andb_true_iff in He as [Hk Ha].
    apply Z.eqb_eq in Hk, Ha. repeat split; assumption.
  - destruct He as [Hk Ha]. split; [exact Hin |].
    unfold is_press_of. rewrite Hk, Ha, !Z.eqb_refl. reflexivity.
Qed.

Lemma key_cb_index_in_range (g : globals) (key scancode action mods : Z) :
  UInt.in_range (uvec2_x (icon_id g)) ->
  UInt.in_range (uvec2_x (icon_id (cb g key scancode action mods))).
Proof.
  intros Hg. unfold key_cb.
  assert (Hm : forall z, UInt.in_range (z mod UInt.modulus)).
  { intros z. apply Z.mod_pos_bound. unfold UInt.modulus. lia. }
  destruct ((key =? GLFW_KEY_ESCAPE) && (action =? GLFW_PRESS));
    destruct ((char_code "0" <=? key) && (key <=? char_code "9") && (action =? GLFW_PRESS));
    destruct ((key =? GLFW_KEY_RIGHT) && (action =? GLFW_PRESS));
    destruct ((key =? GLFW_KEY_LEFT) && (action =? GLFW_PRESS));
    cbn [set_icon_index set_should_close icon_id uvec2_x];
    (exact Hg || apply Hm).
Qed.

(** The stored icon number stays a 32-bit unsigned value: if it is in
    [[0, 2^32)] before a batch of key events, it is after it. *)
Lemma poll_events_index_in_range (evs : list key_event) (g : globals) :
  UInt.in_range (uvec2_x (icon_id g)) ->
  UInt.in_range (uvec2_x (icon_id (poll evs g))).
Proof.
  revert g. induction evs as [| e evs IH]; intros g Hg; cbn [poll_events].
  - exact Hg.
  - apply IH, key_cb_index_in_range, Hg.
Qed.

(** The icon number after an event that does not pass the digit test. *)
Lemma key_cb_index_no_digit (g : globals) (e : key_event) :
  is_digit_press GLFW_PRESS e = false ->
  GLFW_KEY_LEFT <> GLFW_KEY_RIGHT ->
  UInt.in_range (uvec2_x (icon_id g)) ->
  uvec2_x (icon_id (cb_ev g e)) =
    (uvec2_x (icon_id g)
     + count_presses GLFW_PRESS GLFW_KEY_RIGHT [e]
     - count_presses GLFW_PRESS GLFW_KEY_LEFT [e]) mod UInt.modulus.
Proof.
  intros Hd Hne Hg. unfold key_cb, is_digit_press in *. rewrite Hd.
  unfold count_presses, is_press_of. cbn [filter].
  assert (Hx : forall (b : bool) (g0 : globals),
             uvec2_x (icon_id (if b then set_should_close g0 true else g0))
             = uvec2_x (icon_id g0)) by (intros [] g0; reflexivity).
  destruct (Z.eqb_spec (ev_key e) GLFW_KEY_RIGHT) as [ER | NR];
    destruct (Z.eqb_spec (ev_key e) GLFW_KEY_LEFT) as [EL | NL];
    destruct (ev_action e =? GLFW_PRESS);
    cbn [andb length Z.of_nat set_icon_index icon_id uvec2_x];
    rewrite ?Hx; try (exfalso; congruence);
    unfold UInt.add, UInt.sub, UInt.wrap;
    try (f_equal; cbn; lia);
    symmetry; rewrite Z.add_0_r, Z.sub_0_r; apply Z.mod_small; exact Hg.
Qed.

Lemma count_presses_cons (press key : Z) (e : key_event) (evs : list key_event) :
  count_presses press key (e :: evs)
  = count_presses press key [e] + count_presses press key evs.
Proof.
  unfold count_presses. cbn [filter].
  destruct (is_press_of press key e); cbn [length]; lia.
Qed.

Lemma poll_events_arrows_index (evs : list key_event) (g : globals) :
  GLFW_KEY_LEFT <> GLFW_KEY_RIGHT ->
  forallb (fun e => negb (is_digit_press GLFW_PRESS e)) evs = true ->
  UInt.in_range (uvec2_x (icon_id g)) ->
  uvec2_x (icon_id (poll evs g)) =
    (uvec2_x (icon_id g)
     + count_presses GLFW_PRESS GLFW_KEY_RIGHT evs
     - count_presses GLFW_PRESS GLFW_KEY_LEFT evs) mod UInt.modulus.
Proof.
  intros Hne. revert g. induction evs as [| e evs IH]; intros g Hnd Hg.
  - cbn [poll_events]. unfold count_presses. cbn.
    rewrite Z.add_0_r, Z.sub_0_r. symmetry. apply Z.mod_small. exact Hg.
  - cbn [forallb] in Hnd. apply andb_true_iff in Hnd as [Hd Hnd].
    apply negb_true_iff in Hd.
    cbn [poll_events].
    rewrite IH; [| exact Hnd | apply key_cb_index_in_range; exact Hg].
    rewrite (key_cb_index_no_digit g e Hd Hne Hg).
    rewrite (count_presses_cons GLFW_PRESS GLFW_KEY_RIGHT e evs).
    rewrite (count_presses_cons GLFW_PRESS GLFW_KEY_LEFT e evs).
    rewrite <- Z.add_sub_assoc, Zplus_mod_idemp_l. f_equal. lia.
Qed.

(** X5: arrow presses compose by counting.  After a batch without digit
    presses the icon number is the old one plus the number of RIGHT
    presses minus the number of LEFT presses, modulo 2^32, in whatever
    order they came; so a RIGHT and a LEFT press cancel, also across the
    wrap-around at 0. *)
Theorem poll_events_arrows (evs : list key_event) (g : globals) :
  GLFW_KEY_LEFT <> GLFW_KEY_RIGHT ->
  forallb (fun e => negb (is_digit_press GLFW_PRESS e)) evs = true ->
  UInt.in_range (uvec2_x (icon_id g)) ->
  uvec2_x (icon_id (poll evs g)) =
    (uvec2_x (icon_id g)
     + count_presses GLFW_PRESS GLFW_KEY_RIGHT evs
     - count_presses GLFW_PRESS GLFW_KEY_LEFT evs) mod 2 ^ 32.
Proof. exact (poll_events_arrows_index evs g). Qed.

End KeyCallbackMore.

(** ** Further properties of the rectangles *)

Lemma valid_col_row (sideCount index : Z) :
  1 <= sideCount ->
  0 <= index < sideCount * sideCount ->
  0 <= index mod sideCount < sideCount /\ 0 <= index / sideCount < sideCount.
Proof.
  intros Hs Hi. split.
  - apply Z.mod_pos_bound. lia.
  - split; [apply Z.div_pos; lia | apply Z.div_lt_upper_bound; lia].
Qed.








Lemma valid_rect_in_unit_square (sideCount index : Z) (r : UVRect) :
  1 <= sideCount < UInt.modulus ->
  0 <= index < sideCount * sideCount ->
  rectForIndex sideCount index = Some r ->
  in_unit_square r.
Proof.
  intros Hs Hi Hr.
  destruct (rectForIndex_valid sideCount index Hs Hi) as (r' & Hr' & Hu & Hu' & Hv & Hv').
  rewrite Hr in Hr'. injection Hr' as <-.
  destruct (square_side_facts sideCount ltac:(lia)) as [Ht Hd].
  destruct (valid_col_row sideCount index ltac:(lia) Hi) as [Hcol Hrow].
  destruct (cell_in_unit (index mod sideCount) sideCount _ Ht Hd Hcol) as [Hc0 Hc1].
  destruct (cell_in_unit (sideCount - 1 - index / sideCount) sideCount _ Ht Hd
              ltac:(lia)) as [Hr0 Hr1].
  unfold in_unit_square. repeat split; lra.
Qed.

Lemma invalid_rect_above_unit (sideCount index : Z) (r : UVRect) :
  1 <= sideCount < UInt.modulus ->
  sideCount * sideCount <= index < UInt.modulus ->
  rectForIndex sideCount index = Some r ->
  (1 < vMax r)%Q.
Proof.
  intros Hs Hi Hr.
  destruct (rectForIndex_columns sideCount index ltac:(lia)) as (r' & Hr' & _ & _ & Hv & Hv').
  rewrite Hr in Hr'. injection Hr' as <-.
  destruct (square_side_facts sideCount ltac:(lia)) as [Ht Hd].
  rewrite (inv_row_wrap sideCount index Hs Hi) in Hv.
  assert (Hrow : index / sideCount <= index) by (apply Z.div_le_upper_bound; nia).
  pose proof (cell_above_unit (UInt.modulus + sideCount - 1 - index / sideCount)
                sideCount _ Ht Hd ltac:(lia)) as Hv1.
  lra.
Qed.

Lemma display_in_unit_iff (g : globals) :
  1 <= uvec2_y (icon_id g) < UInt.modulus ->
  UInt.in_range (uvec2_x (icon_id g)) ->
  Forall coord_in_unit (display g) <->
  uvec2_x (icon_id g) < uvec2_y (icon_id g) * uvec2_y (icon_id g).
Proof.
  intros Hs Hx.
  destruct (rectForIndex_defined (uvec2_y (icon_id g)) (uvec2_x (icon_id g)) ltac:(lia))
    as (r & Hr & _).
  rewrite (display_corners g r Hr).
  split.
  - intros HF.
    destruct (Z.lt_ge_cases (uvec2_x (icon_id g))
                (uvec2_y (icon_id g) * uvec2_y (icon_id g))) as [Hlt | Hge]; [exact Hlt |].
    exfalso.
    pose proof (invalid_rect_above_unit _ _ r Hs
                  (conj Hge (proj2 Hx)) Hr) as Habove.
    inversion HF as [| p ps Hp _]; subst.
    cbn [coord_in_unit vec2_x vec2_y] in Hp. lra.
  - intros Hlt.
    pose proof (valid_rect_in_unit_square _ _ r Hs (conj (proj1 Hx) Hlt) Hr)
      as (H1 & H2 & H3 & H4 & H5 & H6).
    repeat constructor; cbn [vec2_x vec2_y]; lra.
Qed.


(** ** The key callback and [display] together *)

Section KeyCallbackDisplay.

Variables GLFW_KEY_ESCAPE GLFW_KEY_RIGHT GLFW_KEY_LEFT GLFW_PRESS : Z.

Local Abbreviation cb := (key_cb GLFW_KEY_ESCAPE GLFW_KEY_RIGHT GLFW_KEY_LEFT GLFW_PRESS).
Local Abbreviation poll := (poll_events GLFW_KEY_ESCAPE GLFW_KEY_RIGHT GLFW_KEY_LEFT GLFW_PRESS).

Lemma after_init_poll_side (h : gl_handles) (evs : list key_event) :
  uvec2_y (icon_id (poll evs (after_init h))) = 4.
Proof.
  destruct (poll_events_frame GLFW_KEY_ESCAPE GLFW_KEY_RIGHT GLFW_KEY_LEFT GLFW_PRESS
              evs (after_init h)) as [Hy _].
  exact Hy.
Qed.

(** X10: a digit key always selects an icon of the texture: whatever
    happened before in the main loop, right after a press of a digit key
    [display] draws with coordinates inside the texture (the digits reach
    icons 0 to 9 of the 16). *)
Theorem digit_press_shows_valid_icon
    (h : gl_handles) (evs : list key_event) (key scancode mods : Z) :
  char_code "0" <= key <= char_code "9" ->
  Forall coord_in_unit
    (display (cb (poll evs (after_init h)) key scancode GLFW_PRESS mods)).
Proof.
  intros Hd.
  set (g := poll evs (after_init h)).
  destruct (key_cb_frame GLFW_KEY_ESCAPE GLFW_KEY_RIGHT GLFW_KEY_LEFT GLFW_PRESS
              g key scancode GLFW_PRESS mods) as [Hy _].
  unfold g in Hy at 2. rewrite after_init_poll_side in Hy.
  destruct (key_cb_digit_index GLFW_KEY_ESCAPE GLFW_KEY_RIGHT GLFW_KEY_LEFT GLFW_PRESS
              g key scancode mods Hd) as [_ Hx].
  apply display_in_unit_iff; rewrite ?Hy; unfold UInt.in_range, UInt.modulus; lia.
Qed.

(** X11: arrow keys can leave the texture.  From the start of the main
    loop, after a batch without digit presses, [display] draws with
    coordinates inside the texture if and only if the number of RIGHT
    presses minus the number of LEFT presses, taken modulo 2^32, is below
    16. *)
Theorem arrows_show_valid_icon_iff (h : gl_handles) (evs : list key_event) :
  GLFW_KEY_LEFT <> GLFW_KEY_RIGHT ->
  forallb (fun e => negb (is_digit_press GLFW_PRESS e)) evs = true ->
  Forall coord_in_unit (display (poll evs (after_init h))) <->
  (count_presses GLFW_PRESS GLFW_KEY_RIGHT evs
   - count_presses GLFW_PRESS GLFW_KEY_LEFT evs) mod 2 ^ 32 < 16.
Proof.
  intros Hne Hnd.
  assert (H0 : UInt.in_range (uvec2_x (icon_id (after_init h))))
    by (vm_compute; split; [discriminate | reflexivity]).
  pose proof (poll_events_arrows_index GLFW_KEY_ESCAPE GLFW_KEY_RIGHT GLFW_KEY_LEFT
                GLFW_PRESS evs (after_init h) Hne Hnd H0) as Hx.
  change (uvec2_x (icon_id (after_init h))) with 0 in Hx. rewrite Z.add_0_l in Hx.
  pose proof (after_init_poll_side h evs) as Hy.
  rewrite display_in_unit_iff.
  - rewrite Hy, Hx. unfold UInt.modulus. reflexivity.
  - rewrite Hy. unfold UInt.modulus. lia.
  - rewrite Hx. apply Z.mod_pos_bound. unfold UInt.modulus. lia.
Qed.

End KeyCallbackDisplay.

(** ** Start-up: [compile_shader], [load_icons_texture] and [init] *)

Lemma count_calls_app (f : call -> bool) (t1 t2 : list call) :
  count_calls f (t1 ++ t2) = count_calls f t1 + count_calls f t2.
Proof.
  unfold count_calls. rewrite filter_app, length_app. lia.
Qed.

Lemma count_calls_cons (f : call -> bool) (c : call) (t : list call) :
  count_calls f (c :: t) = (if f c then 1 else 0) + count_calls f t.
Proof.
  unfold count_calls. cbn [filter]. destruct (f c); cbn [length]; lia.
Qed.

Lemma count_calls_nil (f : call -> bool) : count_calls f [] = 0.
Proof. reflexivity. Qed.

(** [compile_shader] returns the compile status and deletes the shader
    exactly when compilation failed. *)
Lemma compile_shader_result (info : compile_info) (shader : Z) (type : shader_type) :
  snd (compile_shader info shader type) = is_compile_ok info.
Proof. reflexivity. Qed.

Lemma compile_shader_deletes (info : compile_info) (shader h : Z) (type : shader_type) :
  count_calls (is_delete_of h) (fst (compile_shader info shader type))
  = if is_compile_ok info then 0 else if shader =? h then 1 else 0.
Proof.
  unfold compile_shader. cbn [fst].
  destruct (written info =? 0), (logSize info =? written info + 1), (is_compile_ok info);
    cbn [app]; repeat rewrite count_calls_cons; rewrite count_calls_nil;
    cbn [is_delete_of]; destruct (shader =? h); reflexivity.
Qed.

Lemma compile_shader_other (f : call -> bool) (info : compile_info) (shader : Z)
    (type : shader_type) :
  (forall s, f (glShaderSource s) = false) ->
  (forall s, f (glCompileShader s) = false) ->
  (forall s, f (glGetShaderiv s) = false) ->
  (forall s, f (glGetShaderInfoLog s) = false) ->
  (forall s, f (glDeleteShader s) = false) ->
  (forall s m, f (fprintf s (msg_compiling m)) = false) ->
  (forall s m, f (fprintf s (msg_compiled m)) = false) ->
  (forall s, f (fprintf s msg_info_log) = false) ->
  (forall s m, f (fprintf s (msg_missing m)) = false) ->
  count_calls f (fst (compile_shader info shader type)) = 0.
Proof.
  intros H1 H2 H3 H4 H5 H6 H7 H8 H9. unfold compile_shader. cbn [fst].
  destruct (written info =? 0), (logSize info =? written info + 1), (is_compile_ok info);
    cbn [app]; repeat rewrite count_calls_cons; rewrite count_calls_nil;
    rewrite ?H1, ?H2, ?H3, ?H4, ?H5, ?H6, ?H7, ?H8, ?H9; reflexivity.
Qed.

Lemma init_unfold (env : gl_env) (g : globals) :
  init env g =
  let t0 := [ glClearColor; glBlendFunc; glEnable; glCreateShader GL_VERTEX_SHADER ] in
  let t1 := fst (compile_shader (env_vs_info env) (env_vs env) GL_VERTEX_SHADER) in
  if negb (is_compile_ok (env_vs_info env)) then (t0 ++ t1, (false, g))
  else
    let t2 := [ glCreateShader GL_FRAGMENT_SHADER ] in
    let t3 := fst (compile_shader (env_fs_info env) (env_fs env) GL_FRAGMENT_SHADER) in
    if negb (is_compile_ok (env_fs_info env)) then (t0 ++ t1 ++ t2 ++ t3, (false, g))
    else
      let p := env_program env in
      let g1 := set_handles g
        {| program := p; attr_vpos := attr_vpos (handles g);
           attr_vtex := attr_vtex (handles g); attr_iconid := attr_iconid (handles g);
           tex := tex (handles g) |} in
      let t4 := [ glCreateProgram; glAttachShader p (env_vs env); glAttachShader p (env_fs env);
                  glLinkProgram p; glGetProgramiv p;
                  glDetachShader p (env_vs env); glDetachShader p (env_fs env);
                  glDeleteShader (env_vs env); glDeleteShader (env_fs env) ] in
      if negb (env_is_link_ok env)
      then (t0 ++ t1 ++ t2 ++ t3 ++ t4 ++ [ fprintf stderr msg_no_link ], (false, g1))
      else
        let t5 :=
          [ glGetAttribLocation p v_pos ]
          ++ (if env_v_pos env =? -1 then [ fprintf stderr (msg_no_attribute v_pos) ] else [])
          ++ [ glGetAttribLocation p v_tex ]
          ++ (if env_v_tex env =? -1 then [ fprintf stderr (msg_no_attribute v_tex) ] else [])
          ++ [ glGetUniformLocation p ] in
        let g2 := set_handles g1
          {| program := p; attr_vpos := env_v_pos env; attr_vtex := env_v_tex env;
             attr_iconid := env_icon_id env; tex := tex (handles g1) |} in
        let t6 := fst (load_icons_texture env g2) in
        let t7 := [ glGenVertexArrays; glBindVertexArray (env_vao env);
                    glGenBuffers; glBindBuffer (env_buffer env); glBufferData ] in
        (t0 ++ t1 ++ t2 ++ t3 ++ t4 ++ t5 ++ t6 ++ t7,
         (true, snd (load_icons_texture env g2))).
Proof. reflexivity. Qed.

Lemma init_ok_eq (env : gl_env) (g : globals) :
  fst (snd (init env g))
  = is_compile_ok (env_vs_info env) && is_compile_ok (env_fs_info env)
    && env_is_link_ok env.
Proof.
  rewrite init_unfold. cbv zeta.
  destruct (is_compile_ok (env_vs_info env)), (is_compile_ok (env_fs_info env)),
    (env_is_link_ok env); reflexivity.
Qed.

Lemma init_globals (env : gl_env) (g : globals) :
  fst (snd (init env g)) = true ->
  snd (snd (init env g)) =
    set_handles g (mk_gl_handles (env_program env) (env_v_pos env) (env_v_tex env)
                     (env_icon_id env) (env_tex env)).
Proof.
  rewrite init_unfold. cbv zeta.
  destruct (is_compile_ok (env_vs_info env)), (is_compile_ok (env_fs_info env)),
    (env_is_link_ok env); cbn [negb fst snd]; try discriminate.
  intros _. reflexivity.
Qed.

(** X12: [init] succeeds exactly when both shaders compile and the
    program links.  A shader attribute that is not found and an image
    that cannot be decoded are reported but do not make it fail.  When it
    succeeds, started from the zeroed globals, the main loop begins in the
    state [after_init] with the handles OpenGL returned. *)
Theorem init_succeeds_iff (env : gl_env) :
  fst (snd (init env globals_at_start))
  = is_compile_ok (env_vs_info env) && is_compile_ok (env_fs_info env)
    && env_is_link_ok env /\
  (fst (snd (init env globals_at_start)) = true ->
   snd (snd (init env globals_at_start))
   = after_init (mk_gl_handles (env_program env) (env_v_pos env) (env_v_tex env)
                   (env_icon_id env) (env_tex env))).
Proof.
  split; [apply init_ok_eq |].
  intros Hok. rewrite (init_globals env globals_at_start Hok). reflexivity.
Qed.

(** X13: [init] deletes every shader object it creates exactly once,
    with one exception: when the fragment shader fails to compile, the
    vertex shader, already compiled, is never deleted. *)
Theorem init_shader_deletion (env : gl_env) (g : globals) :
  env_vs env <> env_fs env ->
  count_calls (is_delete_of (env_vs env)) (fst (init env g))
  = (if is_compile_ok (env_vs_info env) && negb (is_compile_ok (env_fs_info env))
     then 0 else 1) /\
  count_calls (is_delete_of (env_fs env)) (fst (init env g))
  = (if is_compile_ok (env_vs_info env) then 1 else 0).
Proof.
  intros Hne.
  assert (Evf : (env_vs env =? env_fs env) = false) by (apply Z.eqb_neq; exact Hne).
  assert (Efv : (env_fs env =? env_vs env) = false) by (apply Z.eqb_neq; congruence).
  rewrite init_unfold. cbv zeta.
  destruct (is_compile_ok (env_vs_info env)) eqn:Hvs;
    destruct (is_compile_ok (env_fs_info env)) eqn:Hfs;
    destruct (env_is_link_ok env) eqn:Hl;
    cbn [negb andb fst];
    unfold load_icons_texture; cbn [fst];
    destruct (env_v_pos env =? -1), (env_v_tex env =? -1), (env_decode_error env =? 0);
    split;
    repeat rewrite count_calls_app;
    rewrite !compile_shader_deletes, ?Hvs, ?Hfs;
    repeat rewrite count_calls_cons; rewrite ?count_calls_nil;
    cbn [is_delete_of]; rewrite ?Z.eqb_refl, ?Evf, ?Efv; reflexivity.
Qed.

(** X14: [init] uploads the texture exactly when it succeeds, and a
    failure of [lodepng_decode32_file] does not prevent it: the error is
    reported on stderr once and [glTexImage2D] is called all the same. *)
Theorem init_texture_upload (env : gl_env) (g : globals) :
  count_calls is_glTexImage2D (fst (init env g))
  = (if fst (snd (init env g)) then 1 else 0) /\
  count_calls is_image_error_report (fst (init env g))
  = (if fst (snd (init env g)) && negb (env_decode_error env =? 0) then 1 else 0).
Proof.
  rewrite init_ok_eq, init_unfold. cbv zeta.
  destruct (is_compile_ok (env_vs_info env)) eqn:Hvs;
    destruct (is_compile_ok (env_fs_info env)) eqn:Hfs;
    destruct (env_is_link_ok env) eqn:Hl;
    cbn [negb andb fst];
    unfold load_icons_texture; cbn [fst];
    destruct (env_v_pos env =? -1), (env_v_tex env =? -1), (env_decode_error env =? 0);
    split;
    repeat rewrite count_calls_app;
    rewrite !compile_shader_other
      by (intros; repeat match goal with s : stream |- _ => destruct s end; reflexivity);
    repeat rewrite count_calls_cons; rewrite ?count_calls_nil; reflexivity.
Qed.

(** ** The run of [main] *)

Lemma count_calls_none (f : call -> bool) (t : list call) :
  Forall (fun c => f c = false) t -> count_calls f t = 0.
Proof.
  intros H. unfold count_calls.
  induction H as [| c t Hc _ IH]; cbn [filter]; [reflexivity |].
  rewrite Hc. exact IH.
Qed.

Lemma last_app_nonempty (t1 t2 : list call) (d : call) :
  t2 <> [] -> last (t1 ++ t2) d = last t2 d.
Proof.
  intros Hne. induction t1 as [| c t1 IH]; [reflexivity |].
  cbn [app]. destruct (t1 ++ t2) eqn:E.
  - apply app_eq_nil in E as [_ E]. contradiction.
  - rewrite <- IH. reflexivity.
Qed.

Lemma compile_shader_not_main (info : compile_info) (shader : Z) (type : shader_type) :
  Forall (fun c => made_by_main c = false) (fst (compile_shader info shader type)).
Proof.
  unfold compile_shader. cbn [fst].
  destruct (written info =? 0), (logSize info =? written info + 1), (is_compile_ok info);
    repeat constructor.
Qed.

Lemma init_not_main (env : gl_env) (g : globals) :
  Forall (fun c => made_by_main c = false) (fst (init env g)).
Proof.
  rewrite init_unfold. cbv zeta.
  pose proof (compile_shader_not_main (env_vs_info env) (env_vs env) GL_VERTEX_SHADER).
  pose proof (compile_shader_not_main (env_fs_info env) (env_fs env) GL_FRAGMENT_SHADER).
  destruct (is_compile_ok (env_vs_info env)), (is_compile_ok (env_fs_info env)),
    (env_is_link_ok env); cbn [negb fst];
    unfold load_icons_texture; cbn [fst];
    destruct (env_v_pos env =? -1), (env_v_tex env =? -1), (env_decode_error env =? 0);
    repeat first [assumption | apply Forall_app; split]; repeat constructor.
Qed.

Lemma init_count_main (f : call -> bool) (env : gl_env) (g : globals) :
  (forall c, made_by_main c = false -> f c = false) ->
  count_calls f (fst (init env g)) = 0.
Proof.
  intros Hf. apply count_calls_none.
  eapply Forall_impl; [| apply init_not_main]. exact Hf.
Qed.

Section ProgramFacts.

Variables GLFW_KEY_ESCAPE GLFW_KEY_RIGHT GLFW_KEY_LEFT GLFW_PRESS : Z.

Local Abbreviation deliver' := (deliver GLFW_KEY_ESCAPE GLFW_KEY_RIGHT GLFW_KEY_LEFT GLFW_PRESS).
Local Abbreviation poll_window :=
  (poll_window_events GLFW_KEY_ESCAPE GLFW_KEY_RIGHT GLFW_KEY_LEFT GLFW_PRESS).
Local Abbreviation loop := (main_loop GLFW_KEY_ESCAPE GLFW_KEY_RIGHT GLFW_KEY_LEFT GLFW_PRESS).
Local Abbreviation run_main := (main GLFW_KEY_ESCAPE GLFW_KEY_RIGHT GLFW_KEY_LEFT GLFW_PRESS).
Local Abbreviation closing := (closes GLFW_KEY_ESCAPE GLFW_PRESS).
Local Abbreviation shown := (batches_shown GLFW_KEY_ESCAPE GLFW_PRESS).



Lemma deliver_close_flag (g : globals) (w : window_event) :
  window_should_close (deliver' g w) = window_should_close g || closing w.
Proof.
  destruct w as [e |]; cbn [deliver closes].
  - apply key_cb_close_flag.
  - cbn [set_should_close window_should_close]. rewrite orb_true_r. reflexivity.
Qed.

Lemma poll_window_events_close_flag (ws : list window_event) (g : globals) :
  window_should_close (poll_window ws g) = window_should_close g || existsb closing ws.
Proof.
  unfold poll_window_events. revert g.
  induction ws as [| w ws IH]; intros g; cbn [fold_left existsb].
  - rewrite orb_false_r. reflexivity.
  - rewrite IH, deliver_close_flag, orb_assoc. reflexivity.
Qed.

(** Key events alone are handled as [poll_events] does. *)
Lemma poll_window_events_keys (evs : list key_event) (g : globals) :
  poll_window (map KeyEvent evs) g
  = poll_events GLFW_KEY_ESCAPE GLFW_KEY_RIGHT GLFW_KEY_LEFT GLFW_PRESS evs g.
Proof.
  unfold poll_window_events. revert g.
  induction evs as [| e evs IH]; intros g; cbn [map fold_left poll_events];
    [reflexivity | apply IH].
Qed.

Lemma main_loop_outcome (batches : list (list window_event)) (g : globals) :
  snd (loop batches g)
  = if window_should_close g || existsb (existsb closing) batches
    then Exited 0 else Running.
Proof.
  revert g. induction batches as [| ws batches IH]; intros g; cbn [main_loop existsb].
  - destruct (window_should_close g); reflexivity.
  - destruct (window_should_close g) eqn:Hc; [reflexivity |].
    specialize (IH (poll_window ws g)).
    destruct (loop batches (poll_window ws g)) as [t o]. cbn [snd] in *.
    rewrite IH, poll_window_events_close_flag, Hc. cbn [orb]. reflexivity.
Qed.

Lemma display_calls_draws (g : globals) :
  count_calls is_glDrawArrays (display_calls g) = 1.
Proof. reflexivity. Qed.

Lemma main_loop_draws (batches : list (list window_event)) (g : globals) :
  count_calls is_glDrawArrays (fst (loop batches g))
  = if window_should_close g then 0 else Z.of_nat (length (shown batches)).
Proof.
  revert g. induction batches as [| ws batches IH]; intros g;
    cbn [main_loop batches_shown].
  - destruct (window_should_close g); reflexivity.
  - destruct (window_should_close g) eqn:Hc; [reflexivity |].
    specialize (IH (poll_window ws g)).
    rewrite poll_window_events_close_flag, Hc in IH. cbn [orb] in IH.
    destruct (loop batches (poll_window ws g)) as [t o]. cbn [fst] in *.
    rewrite count_calls_cons, !count_calls_app, display_calls_draws, IH.
    destruct (existsb closing ws); cbn [is_glDrawArrays length];
      rewrite ?count_calls_cons, ?count_calls_nil; cbn [is_glDrawArrays]; lia.
Qed.

(** The calls that end the program, in the trace of the main loop. *)
Lemma main_loop_cleanup (f : call -> bool) (batches : list (list window_event))
    (g : globals) :
  (forall c, made_by_main c = false -> f c = false) ->
  f glDrawArrays = false ->
  (forall l v, f (glUniform2uiv l v) = false) ->
  count_calls f (fst (loop batches g))
  = match snd (loop batches g) with
    | Exited _ => count_calls f (shutdown_glfw_and_exit 0)
    | Running => 0
    end.
Proof.
  intros Hf Hd Hu. revert g.
  induction batches as [| ws batches IH]; intros g; cbn [main_loop].
  - destruct (window_should_close g); cbn [fst snd].
    + rewrite count_calls_cons, (Hf glfwWindowShouldClose eq_refl). reflexivity.
    + rewrite count_calls_cons, (Hf glfwWindowShouldClose eq_refl). reflexivity.
  - destruct (window_should_close g); cbn [fst snd].
    + rewrite count_calls_cons, (Hf glfwWindowShouldClose eq_refl). reflexivity.
    + specialize (IH (poll_window ws g)).
      destruct (loop batches (poll_window ws g)) as [t o]. cbn [fst snd] in *.
      rewrite count_calls_cons, !count_calls_app, IH.
      unfold display_calls. repeat rewrite count_calls_cons. rewrite count_calls_nil.
      rewrite Hd, Hu, !Hf by reflexivity. lia.
Qed.

Lemma main_loop_last (batches : list (list window_event)) (g : globals) (d : call) :
  fst (loop batches g) <> [] /\
  forall s, snd (loop batches g) = Exited s -> last (fst (loop batches g)) d = exit s.
Proof.
  revert g. induction batches as [| ws batches IH]; intros g; cbn [main_loop].
  - destruct (window_should_close g); cbn [fst snd]; (split; [discriminate |]).
    + intros s [= <-]. reflexivity.
    + discriminate.
  - destruct (window_should_close g); cbn [fst snd].
    + split; [discriminate |]. intros s [= <-]. reflexivity.
    + destruct (IH (poll_window ws g)) as [Hne Hl].
      destruct (loop batches (poll_window ws g)) as [t o]. cbn [fst snd] in *.
      split; [discriminate |].
      intros s Hs.
      change (glfwWindowShouldClose :: display_calls g ++ [glfwSwapBuffers; glfwPollEvents] ++ t)
        with ((glfwWindowShouldClose :: display_calls g ++ [glfwSwapBuffers; glfwPollEvents]) ++ t).
      rewrite last_app_nonempty by exact Hne. apply Hl, Hs.
Qed.


(** The calls of [main] before [init], when GLFW, the window and GLEW are
    all available. *)
Lemma main_after_glew (env : gl_env) (batches : list (list window_event)) :
  env_glfwInit env = true -> env_window env = true -> env_glewInit env = true ->
  exists before : list call,
    Forall (fun c => made_by_main c = false) before /\
    run_main env batches =
    let i := init env globals_at_start in
    if fst (snd i)
    then (before ++ fst i ++ fst (loop batches (snd (snd i))),
          snd (loop batches (snd (snd i))))
    else (before ++ fst i ++ shutdown_glfw_and_exit (-1), Exited (-1)).
Proof.
  intros H1 H2 H3.
  exists ([ glfwSetErrorCallback; glfwInit ]
          ++ [ glfwGetVersionString; printf msg_using_glfw;
               glfwWindowHint; glfwWindowHint; glfwWindowHint; glfwWindowHint;
               glfwCreateWindow ]
          ++ [ glfwSetKeyCallback; glfwMakeContextCurrent; glewInit ]
          ++ [ glGetString; printf msg_using_opengl; glfwSwapInterval ]).
  split; [repeat constructor |].
  unfold main. rewrite H1, H2, H3. cbn [negb]. cbv zeta.
  destruct (init env globals_at_start) as [t [ok g]]. cbn [fst snd].
  destruct ok; cbn [negb]; [| reflexivity].
  destruct (loop batches g) as [t' o]. reflexivity.
Qed.

Lemma init_leaves_window_open (env : gl_env) :
  fst (snd (init env globals_at_start)) = true ->
  window_should_close (snd (snd (init env globals_at_start))) = false /\
  uvec2_y (icon_id (snd (snd (init env globals_at_start)))) = 4 /\
  attr_iconid (handles (snd (snd (init env globals_at_start)))) = env_icon_id env.
Proof.
  intros Hok. rewrite (init_globals env globals_at_start Hok).
  repeat split.
Qed.

Lemma startup_ok_after_glew (env : gl_env) :
  env_glfwInit env = true -> env_window env = true -> env_glewInit env = true ->
  startup_ok env = fst (snd (init env globals_at_start)).
Proof.
  intros H1 H2 H3. unfold startup_ok. rewrite H1, H2, H3, init_ok_eq. reflexivity.
Qed.

Lemma startup_not_ok (env : gl_env) :
  env_glfwInit env && env_window env && env_glewInit env = false ->
  startup_ok env = false.
Proof. intros H. unfold startup_ok. rewrite H. reflexivity. Qed.

(** X15: how [main] ends.  If GLFW, the window, GLEW, both shaders or the
    link fail, it calls [exit(-1)], whatever the events.  Otherwise it
    calls [exit(0)] once some [glfwPollEvents] has delivered a close
    request or a press of Escape, and keeps looping as long as none
    has. *)
Theorem main_outcome (env : gl_env) (batches : list (list window_event)) :
  snd (run_main env batches)
  = if startup_ok env
    then if existsb (existsb closing) batches then Exited 0 else Running
    else Exited (-1).
Proof.
  destruct (env_glfwInit env) eqn:H1; [| unfold main, startup_ok; rewrite H1; reflexivity].
  destruct (env_window env) eqn:H2; [| unfold main, startup_ok; rewrite H1, H2; reflexivity].
  destruct (env_glewInit env) eqn:H3;
    [| unfold main, startup_ok; rewrite H1, H2, H3; reflexivity].
  destruct (main_after_glew env batches H1 H2 H3) as (before & _ & E).
  rewrite E, (startup_ok_after_glew env H1 H2 H3). cbv zeta.
  destruct (fst (snd (init env globals_at_start))) eqn:Hok; cbn [snd]; [| reflexivity].
  destruct (init_leaves_window_open env Hok) as [Hc _].
  rewrite main_loop_outcome, Hc. reflexivity.
Qed.

(** X16: [main] draws one frame for each call of [glfwPollEvents] it
    makes: the calls of [glDrawArrays] are as many as the batches of
    events up to and including the first one that closes the window.
    Nothing is drawn after a closing batch, and nothing at all when
    start-up fails. *)
Theorem main_frames (env : gl_env) (batches : list (list window_event)) :
  count_calls is_glDrawArrays (fst (run_main env batches))
  = if startup_ok env then Z.of_nat (length (shown batches)) else 0.
Proof.
  destruct (env_glfwInit env) eqn:H1; [| unfold main, startup_ok; rewrite H1; reflexivity].
  destruct (env_window env) eqn:H2; [| unfold main, startup_ok; rewrite H1, H2; reflexivity].
  destruct (env_glewInit env) eqn:H3;
    [| unfold main, startup_ok; rewrite H1, H2, H3; reflexivity].
  destruct (main_after_glew env batches H1 H2 H3) as (before & Hb & E).
  assert (Hf : forall c, made_by_main c = false -> is_glDrawArrays c = false)
    by (intros [] Hc; (reflexivity || discriminate Hc)).
  rewrite E, (startup_ok_after_glew env H1 H2 H3). cbv zeta.
  destruct (fst (snd (init env globals_at_start))) eqn:Hok; cbn [fst];
    rewrite !count_calls_app, (init_count_main _ env globals_at_start Hf),
      (count_calls_none _ before (Forall_impl _ Hf Hb)).
  - destruct (init_leaves_window_open env Hok) as [Hc _].
    rewrite main_loop_draws, Hc. lia.
  - reflexivity.
Qed.

Lemma main_cleanup_count (f : call -> bool) (env : gl_env)
    (batches : list (list window_event)) :
  (forall c, made_by_main c = false -> f c = false) ->
  f glDrawArrays = false ->
  (forall l v, f (glUniform2uiv l v) = false) ->
  env_glfwInit env = true -> env_window env = true -> env_glewInit env = true ->
  count_calls f (fst (run_main env batches))
  = match snd (run_main env batches) with
    | Exited s => count_calls f (shutdown_glfw_and_exit s)
    | Running => 0
    end.
Proof.
  intros Hf Hd Hu H1 H2 H3.
  destruct (main_after_glew env batches H1 H2 H3) as (before & Hb & E).
  rewrite E. cbv zeta.
  destruct (fst (snd (init env globals_at_start))) eqn:Hok; cbn [fst snd];
    rewrite !count_calls_app, (init_count_main _ env globals_at_start Hf),
      (count_calls_none _ before (Forall_impl _ Hf Hb)).
  - rewrite (main_loop_cleanup f batches _ Hf Hd Hu).
    pose proof (main_loop_outcome batches (snd (snd (init env globals_at_start)))) as Ho.
    destruct (snd (loop batches (snd (snd (init env globals_at_start))))) as [s |];
      [| reflexivity].
    destruct (_ || _) in Ho; [injection Ho as -> | discriminate Ho]. reflexivity.
  - reflexivity.
Qed.

(** X17: how [main] cleans up.  A run that ends has exactly one call of
    [exit], and it is the last call.  [glfwTerminate] is called exactly
    once on every such run except when [glfwInit] itself failed, and
    [glfwDestroyWindow] exactly once when the window had been created;
    while the program is looping none of the three has been called. *)
Theorem main_cleanup (env : gl_env) (batches : list (list window_event)) :
  match snd (run_main env batches) with
  | Exited s =>
      last (fst (run_main env batches)) glfwInit = exit s /\
      count_calls is_exit (fst (run_main env batches)) = 1 /\
      count_calls is_glfwTerminate (fst (run_main env batches))
      = (if env_glfwInit env then 1 else 0) /\
      count_calls is_glfwDestroyWindow (fst (run_main env batches))
      = (if env_glfwInit env && env_window env then 1 else 0)
  | Running =>
      count_calls is_exit (fst (run_main env batches)) = 0 /\
      count_calls is_glfwTerminate (fst (run_main env batches)) = 0 /\
      count_calls is_glfwDestroyWindow (fst (run_main env batches)) = 0
  end.
Proof.
  destruct (env_glfwInit env) eqn:H1;
    [| unfold main; rewrite H1; cbn; repeat split].
  destruct (env_window env) eqn:H2;
    [| unfold main; rewrite H1, H2; cbn; repeat split].
  destruct (env_glewInit env) eqn:H3;
    [| unfold main; rewrite H1, H2, H3; cbn; repeat split].
  assert (F1 : forall c, made_by_main c = false -> is_exit c = false)
    by (intros [] Hc; (reflexivity || discriminate Hc)).
  assert (F2 : forall c, made_by_main c = false -> is_glfwTerminate c = false)
    by (intros [] Hc; (reflexivity || discriminate Hc)).
  assert (F3 : forall c, made_by_main c = false -> is_glfwDestroyWindow c = false)
    by (intros [] Hc; (reflexivity || discriminate Hc)).
  rewrite (main_cleanup_count is_exit env batches F1) by (reflexivity || assumption).
  rewrite (main_cleanup_count is_glfwTerminate env batches F2)
    by (reflexivity || assumption).
  rewrite (main_cleanup_count is_glfwDestroyWindow env batches F3)
    by (reflexivity || assumption).
  destruct (main_after_glew env batches H1 H2 H3) as (before & Hb & E).
  destruct (snd (run_main env batches)) as [s |] eqn:Ho; [| repeat split].
  split; [| repeat split].
  rewrite E in Ho |- *. cbv zeta in Ho |- *.
  destruct (fst (snd (init env globals_at_start))); cbn [fst snd] in Ho |- *.
  - destruct (main_loop_last batches (snd (snd (init env globals_at_start))) glfwInit)
      as [Hne Hl].
    rewrite !last_app_nonempty; [apply Hl, Ho | exact Hne |].
    intros Happ. apply app_eq_nil in Happ as [_ Happ]. contradiction.
  - injection Ho as <-.
    rewrite !last_app_nonempty; [reflexivity | discriminate |].
    intros Happ. apply app_eq_nil in Happ as [_ Happ]. discriminate Happ.
Qed.


End ProgramFacts.

(** ** The properties above at concrete inputs *)

Lemma key_cb_digit_witness :
  char_code "0" <= char_code "7" <= char_code "9" /\
  uvec2_x (icon_id (key_cb Glfw3.KEY_ESCAPE Glfw3.KEY_RIGHT Glfw3.KEY_LEFT Glfw3.PRESS
                      (after_init (mk_gl_handles 1 0 1 0 1))
                      (char_code "7") 16 Glfw3.PRESS 0))
    = char_code "7" - char_code "0" /\
  0 <= uvec2_x (icon_id (key_cb Glfw3.KEY_ESCAPE Glfw3.KEY_RIGHT Glfw3.KEY_LEFT Glfw3.PRESS
                           (after_init (mk_gl_handles 1 0 1 0 1))
                           (char_code "7") 16 Glfw3.PRESS 0)) <= 9.
Proof.
  assert (Hd : char_code "0" <= char_code "7" <= char_code "9") by (vm_compute; split; discriminate).
  exact (conj Hd (key_cb_digit Glfw3.KEY_ESCAPE Glfw3.KEY_RIGHT Glfw3.KEY_LEFT Glfw3.PRESS
                    (after_init (mk_gl_handles 1 0 1 0 1)) (char_code "7") 16 0 Hd)).
Defined.

Lemma key_cb_ignores_witness :
  (Glfw3.PRESS <> Glfw3.PRESS \/
   (char_code "A" <> Glfw3.KEY_ESCAPE /\
    ~ (char_code "0" <= char_code "A" <= char_code "9") /\
    char_code "A" <> Glfw3.KEY_RIGHT /\ char_code "A" <> Glfw3.KEY_LEFT)) /\
  key_cb Glfw3.KEY_ESCAPE Glfw3.KEY_RIGHT Glfw3.KEY_LEFT Glfw3.PRESS
    (after_init (mk_gl_handles 1 0 1 0 1)) (char_code "A") 38 Glfw3.PRESS 0
  = after_init (mk_gl_handles 1 0 1 0 1).
Proof.
  assert (H : Glfw3.PRESS <> Glfw3.PRESS \/
              (char_code "A" <> Glfw3.KEY_ESCAPE /\
               ~ (char_code "0" <= char_code "A" <= char_code "9") /\
               char_code "A" <> Glfw3.KEY_RIGHT /\ char_code "A" <> Glfw3.KEY_LEFT)).
  { right. vm_compute. repeat split; try discriminate.
    intros [_ H]. apply H. reflexivity. }
  exact (conj H (key_cb_ignores Glfw3.KEY_ESCAPE Glfw3.KEY_RIGHT Glfw3.KEY_LEFT Glfw3.PRESS
                   (after_init (mk_gl_handles 1 0 1 0 1)) (char_code "A") 38
                   Glfw3.PRESS 0 H)).
Defined.

Lemma key_cb_escape_witness :
  ~ (char_code "0" <= Glfw3.KEY_ESCAPE <= char_code "9") /\
  Glfw3.KEY_ESCAPE <> Glfw3.KEY_RIGHT /\
  Glfw3.KEY_ESCAPE <> Glfw3.KEY_LEFT /\
  key_cb Glfw3.KEY_ESCAPE Glfw3.KEY_RIGHT Glfw3.KEY_LEFT Glfw3.PRESS
    (after_init (mk_gl_handles 1 0 1 0 1)) Glfw3.KEY_ESCAPE 9 Glfw3.PRESS 0
  = set_should_close (after_init (mk_gl_handles 1 0 1 0 1)) true.
Proof.
  assert (Hd : ~ (char_code "0" <= Glfw3.KEY_ESCAPE <= char_code "9"))
    by (vm_compute; intros [_ H]; apply H; reflexivity).
  assert (Hr : Glfw3.KEY_ESCAPE <> Glfw3.KEY_RIGHT) by (vm_compute; discriminate).
  assert (Hl : Glfw3.KEY_ESCAPE <> Glfw3.KEY_LEFT) by (vm_compute; discriminate).
  exact (conj Hd (conj Hr (conj Hl
    (key_cb_escape Glfw3.KEY_ESCAPE Glfw3.KEY_RIGHT Glfw3.KEY_LEFT Glfw3.PRESS
       (after_init (mk_gl_handles 1 0 1 0 1)) 9 0 Hd Hr Hl)))).
Defined.

Lemma poll_events_arrows_witness :
  let g := after_init (mk_gl_handles 1 0 1 0 1) in
  let evs := [ mk_key_event Glfw3.KEY_RIGHT 114 Glfw3.PRESS 0;
               mk_key_event Glfw3.KEY_LEFT 113 Glfw3.PRESS 0;
               mk_key_event Glfw3.KEY_LEFT 113 Glfw3.PRESS 0 ] in
  Glfw3.KEY_LEFT <> Glfw3.KEY_RIGHT /\
  forallb (fun e => negb (is_digit_press Glfw3.PRESS e)) evs = true /\
  UInt.in_range (uvec2_x (icon_id g)) /\
  uvec2_x (icon_id (poll_events Glfw3.KEY_ESCAPE Glfw3.KEY_RIGHT Glfw3.KEY_LEFT
                      Glfw3.PRESS evs g))
  = (uvec2_x (icon_id g)
     + count_presses Glfw3.PRESS Glfw3.KEY_RIGHT evs
     - count_presses Glfw3.PRESS Glfw3.KEY_LEFT evs) mod 2 ^ 32.
Proof.
  intros g evs.
  assert (Hne : Glfw3.KEY_LEFT <> Glfw3.KEY_RIGHT) by (vm_compute; discriminate).
  assert (Hnd : forallb (fun e => negb (is_digit_press Glfw3.PRESS e)) evs = true)
    by (vm_compute; reflexivity).
  assert (Hg : UInt.in_range (uvec2_x (icon_id g)))
    by (vm_compute; split; [discriminate | reflexivity]).
  exact (conj Hne (conj Hnd (conj Hg
    (poll_events_arrows Glfw3.KEY_ESCAPE Glfw3.KEY_RIGHT Glfw3.KEY_LEFT Glfw3.PRESS
       evs g Hne Hnd Hg)))).
Defined.





Lemma digit_press_shows_valid_icon_witness :
  char_code "0" <= char_code "9" <= char_code "9" /\
  Forall coord_in_unit
    (display
       (key_cb Glfw3.KEY_ESCAPE Glfw3.KEY_RIGHT Glfw3.KEY_LEFT Glfw3.PRESS
          (poll_events Glfw3.KEY_ESCAPE Glfw3.KEY_RIGHT Glfw3.KEY_LEFT Glfw3.PRESS
             [ mk_key_event Glfw3.KEY_LEFT 113 Glfw3.PRESS 0 ]
             (after_init (mk_gl_handles 1 0 1 0 1)))
          (char_code "9") 18 Glfw3.PRESS 0)).
Proof.
  assert (Hd : char_code "0" <= char_code "9" <= char_code "9")
    by (vm_compute; split; discriminate).
  exact (conj Hd
    (digit_press_shows_valid_icon Glfw3.KEY_ESCAPE Glfw3.KEY_RIGHT Glfw3.KEY_LEFT
       Glfw3.PRESS (mk_gl_handles 1 0 1 0 1)
       [ mk_key_event Glfw3.KEY_LEFT 113 Glfw3.PRESS 0 ] (char_code "9") 18 0 Hd)).
Defined.

Lemma arrows_show_valid_icon_iff_witness :
  let h := mk_gl_handles 1 0 1 0 1 in
  let evs := [ mk_key_event Glfw3.KEY_LEFT 113 Glfw3.PRESS 0 ] in
  Glfw3.KEY_LEFT <> Glfw3.KEY_RIGHT /\
  forallb (fun e => negb (is_digit_press Glfw3.PRESS e)) evs = true /\
  (Forall coord_in_unit
     (display (poll_events Glfw3.KEY_ESCAPE Glfw3.KEY_RIGHT Glfw3.KEY_LEFT Glfw3.PRESS
                 evs (after_init h))) <->
   (count_presses Glfw3.PRESS Glfw3.KEY_RIGHT evs
    - count_presses Glfw3.PRESS Glfw3.KEY_LEFT evs) mod 2 ^ 32 < 16).
Proof.
  intros h evs.
  assert (Hne : Glfw3.KEY_LEFT <> Glfw3.KEY_RIGHT) by (vm_compute; discriminate).
  assert (Hnd : forallb (fun e => negb (is_digit_press Glfw3.PRESS e)) evs = true)
    by (vm_compute; reflexivity).
  exact (conj Hne (conj Hnd
    (arrows_show_valid_icon_iff Glfw3.KEY_ESCAPE Glfw3.KEY_RIGHT Glfw3.KEY_LEFT
       Glfw3.PRESS h evs Hne Hnd))).
Defined.

Lemma init_shader_deletion_witness :
  let ok := mk_compile_info true 0 0 in
  let failed := mk_compile_info false 25 24 in
  let env := mk_gl_env true true true 1 ok 2 failed 3 true 0 1 0 1 0 1 1 in
  env_vs env <> env_fs env /\
  count_calls (is_delete_of (env_vs env)) (fst (init env globals_at_start))
  = (if is_compile_ok (env_vs_info env) && negb (is_compile_ok (env_fs_info env))
     then 0 else 1) /\
  count_calls (is_delete_of (env_fs env)) (fst (init env globals_at_start))
  = (if is_compile_ok (env_vs_info env) then 1 else 0).
Proof.
  intros ok failed env.
  assert (Hne : env_vs env <> env_fs env) by (vm_compute; discriminate).
  exact (conj Hne (init_shader_deletion env globals_at_start Hne)).
Defined.
